(** * cvpickle: pickling support for contextvars.Context objects

    A shallow embedding of [src/src/cvpickle.py] and the properties of its
    registry, its reducer and its reconstruction factory.

    Python objects are referred to by identity ([ref]); dictionaries are
    finite maps.  The interpreter facilities the module calls
    (importlib.import_module, pickle._getattribute, ContextVar.set,
    Context.run, contextvars.copy_context, copyreg.pickle and the optional
    stackless flags) are modelled next to the code that uses them. *)

From stdpp Require Import gmap strings list fin_maps.
From Stdlib Require Import ZArith Ascii.

Local Open Scope string_scope.

(** ** Objects, exceptions and results *)

(** The identity of an object, id(obj). *)
Definition ref := nat.

(** The exception classes the module raises or lets through. *)
Inductive exn :=
| TypeError
| ValueError
| KeyError
| ImportError
| AttributeError.

Global Instance exn_eq_dec : EqDecision exn.
Proof. solve_decision. Defined.

(** The outcome of a call: a returned value or a raised exception. *)
Inductive result (A : Type) :=
| Ok (a : A)
| Raise (e : exn).
Arguments Ok {A} a.
Arguments Raise {A} e.

(** What isinstance(obj, contextvars.ContextVar) tells apart. *)
Inductive kind :=
| ContextVar (name : string)
| Other.

(** A live object: what it is, and the attributes getattr finds on it. *)
Record pyobj := PyObj {
  py_kind : kind;
  py_attrs : gmap string ref
}.

(** type(context): contextvars.Context itself, or a subclass of it. *)
Inductive ctx_class :=
| BaseContext
| SubContext (name : string).

Global Instance ctx_class_eq_dec : EqDecision ctx_class.
Proof. solve_decision. Defined.

(** A contextvars.Context object: its type and its mapping from context
    variables (by identity) to values (references to arbitrary objects). *)
Record Context := MkContext {
  ctx_type : ctx_class;
  ctx_vars : gmap ref ref
}.

(** An argument handed to the reducer: a Context, or any other object. *)
Inductive pyarg :=
| ArgContext (c : Context)
| ArgObject (o : ref).

(** What the factory may be told to call for a new context: the function
    contextvars.copy_context, or a subclass of contextvars.Context. *)
Inductive factory_callable :=
| CopyContext
| ContextClass (c : ctx_class).

(** The first element of the argument tuple of a reduction: None or such
    a callable. *)
Definition selector : Type := option factory_callable.

(** The module argument of register_contextvar: a str, or an instance of
    types.ModuleType given with its __name__. *)
Inductive module_arg :=
| ModulePath (path : string)
| ModuleObject (m : ref) (name : string).

(** The stackless module, when it can be imported: the flag constant and
    the two flag words written by pickle_flags and pickle_flags_default. *)
Record Stackless := MkStackless {
  PICKLEFLAGS_PICKLE_CONTEXT : Z;
  flags_current : Z;
  flags_default : Z
}.

(** stackless.pickle_flags(new_flags, mask) and pickle_flags_default: the
    bits selected by mask are replaced by those of new_flags. *)
Definition update_flags (old new_flags mask : Z) : Z :=
  Z.lor (Z.land old (Z.lnot mask)) (Z.land new_flags mask).

Definition pickle_flags (new_flags mask : Z) (s : Stackless) : Stackless :=
  {| PICKLEFLAGS_PICKLE_CONTEXT := PICKLEFLAGS_PICKLE_CONTEXT s;
     flags_current := update_flags (flags_current s) new_flags mask;
     flags_default := flags_default s |}.

Definition pickle_flags_default (new_flags mask : Z) (s : Stackless) : Stackless :=
  {| PICKLEFLAGS_PICKLE_CONTEXT := PICKLEFLAGS_PICKLE_CONTEXT s;
     flags_current := flags_current s;
     flags_default := update_flags (flags_default s) new_flags mask |}.

(** The part of the running process the module reads and writes. *)
Record Process := MkProcess {
  (** live objects, by identity *)
  heap : gmap ref pyobj;
  (** the modules importlib.import_module finds, by name *)
  sys_modules : gmap string ref;
  (** the context that is current in the running thread *)
  current_context : Context;
  (** the calls copyreg.pickle(contextvars.Context, r) made so far, newest
      first: the head is the reducer in copyreg.dispatch_table *)
  copyreg_calls : list ref;
  (** the stackless module, None when importing it raises ImportError *)
  stackless : option Stackless
}.

Definition set_current_context (c : Context) (st : Process) : Process :=
  {| heap := heap st; sys_modules := sys_modules st; current_context := c;
     copyreg_calls := copyreg_calls st; stackless := stackless st |}.

(** ** A state and exception monad for code that runs in the process *)

Definition M (A : Type) : Type := Process → result A * Process.

Definition ret {A} (a : A) : M A := λ st, (Ok a, st).
Definition raise {A} (e : exn) : M A := λ st, (Raise e, st).
Definition bind {A B} (m : M A) (k : A → M B) : M B :=
  λ st, match m st with
        | (Ok a, st') => k a st'
        | (Raise e, st') => (Raise e, st')
        end.
(** A call that only reads the process. *)
Definition read {A} (f : Process → result A) : M A := λ st, (f st, st).

Notation "'let*' x ':=' m 'in' k" := (bind m (λ x, k))
  (at level 10, x pattern, m at level 100, k at level 200).

(** ** Name resolution *)

(** importlib.import_module(name) *)
Definition import_module (st : Process) (name : string) : result ref :=
  match sys_modules st !! name with
  | Some m => Ok m
  | None => Raise ImportError
  end.

(** getattr(obj, name), over the live objects *)
Definition getattr (h : gmap ref pyobj) (obj : ref) (name : string) : option ref :=
  match h !! obj with
  | Some o => py_attrs o !! name
  | None => None
  end.

(** name.split('.') *)
Fixpoint split_dots (acc : string) (s : string) : list string :=
  match s with
  | EmptyString => [String.rev acc]
  | String c s' =>
      if Ascii.eqb c "."%char then String.rev acc :: split_dots EmptyString s'
      else split_dots (String c acc) s'
  end.

(** The loop of pickle._getattribute over the parts of the dotted name. *)
Fixpoint getattribute_path (h : gmap ref pyobj) (obj parent : ref) (path : list string)
  : result (ref * ref) :=
  match path with
  | [] => Ok (obj, parent)
  | subpath :: rest =>
      if decide (subpath = "<locals>") then Raise AttributeError
      else match getattr h obj subpath with
           | Some o => getattribute_path h o obj rest
           | None => Raise AttributeError
           end
  end.

(** pickle._getattribute(obj, name): the object at the dotted path and its
    parent. *)
Definition _getattribute (st : Process) (obj : ref) (name : string)
  : result (ref * ref) :=
  getattribute_path (heap st) obj obj (split_dots EmptyString name).

(** importlib.import_module(modulename) followed by
    _getattribute(module, qualname)[0]. *)
Definition resolve (st : Process) (modulename qualname : string) : result ref :=
  match import_module st modulename with
  | Ok module =>
      match _getattribute st module qualname with
      | Ok (v, _) => Ok v
      | Raise e => Raise e
      end
  | Raise e => Raise e
  end.

(** ** Context variables and contexts *)

(** isinstance(obj, contextvars.ContextVar), with the variable's name *)
Definition contextvar_name (st : Process) (obj : ref) : option string :=
  match heap st !! obj with
  | Some (PyObj (ContextVar name) _) => Some name
  | _ => None
  end.

(** cv.set(value): records the value in the current context.  Only a
    ContextVar has this method; on any other object the attribute lookup
    raises AttributeError. *)
Definition ContextVar_set (cv value : ref) : M unit :=
  λ st, match contextvar_name st cv with
        | Some _ =>
            let c := current_context st in
            (Ok tt, set_current_context
                      (MkContext (ctx_type c) (<[cv := value]> (ctx_vars c))) st)
        | None => (Raise AttributeError, st)
        end.

(** contextvars.copy_context(): a new Context holding the current values *)
Definition copy_context (st : Process) : Context :=
  MkContext BaseContext (ctx_vars (current_context st)).

(** context.run(f): f runs with context as the current context, what it
    sets is recorded in context, and the previous context is current again
    afterwards, also when f raises.  Gives the outcome of f and the
    context as f left it. *)
Definition Context_run {A} (context : Context) (f : M A)
  : Process → (result A * Context) * Process :=
  λ st, let prev := current_context st in
        let '(r, st') := f (set_current_context context st) in
        ((r, current_context st'), set_current_context prev st').

(** cls(): what calling the selector of a reduction returns *)
Definition call_selector (cls : factory_callable) (st : Process) : Context :=
  match cls with
  | CopyContext => copy_context st
  | ContextClass c => MkContext c ∅
  end.

(** Lines 58-61 of _context_factory: the context the factory starts
    from, a new Context when cls is None and cls() otherwise. *)
Definition new_context (cls : selector) (st : Process) : Context :=
  match cls with
  | None => MkContext BaseContext ∅
  | Some cls => call_selector cls st
  end.

(** ** The module cvpickle *)

(** A ContextReducer object: its identity and its three attributes. *)
Record ContextReducer := MkContextReducer {
  reducer_id : ref;
  picklable_contextvars : gmap ref (string * string);
  auto_register : bool;
  factory_is_copy_context : bool
}.

(** ContextReducer.__init__ *)
Definition ContextReducer_init (id : ref) (auto_register factory_is_copy_context : bool)
  : ContextReducer :=
  {| reducer_id := id;
     picklable_contextvars := ∅;
     auto_register := auto_register;
     factory_is_copy_context := factory_is_copy_context |}.

(** The body of the loop of ContextReducer.__call__. *)
Definition reduce_step (registry : gmap ref (string * string))
    (cvars : gmap (string * string) ref) (item : ref * ref)
  : gmap (string * string) ref :=
  let '(cv, value) := item in
  match registry !! cv with
  | Some mod_and_name => <[mod_and_name := value]> cvars
  | None => cvars
  end.

(** Lines 91-95 of ContextReducer.__call__: the dict cvars built from the
    items of the context. *)
Definition reduce_items (registry : gmap ref (string * string))
    (items : list (ref * ref)) : gmap (string * string) ref :=
  foldl (reduce_step registry) ∅ items.

(** The selection of cls at the end of ContextReducer.__call__. *)
Definition select_cls (self : ContextReducer) (c : Context) : selector :=
  if factory_is_copy_context self then Some CopyContext
  else if decide (ctx_type c = BaseContext) then None
       else Some (ContextClass (ctx_type c)).

(** del self.picklable_contextvars[contextvar] *)
Definition ContextReducer_unregister_contextvar (self : ContextReducer) (contextvar : ref)
  : result unit * ContextReducer :=
  match picklable_contextvars self !! contextvar with
  | Some _ =>
      (Ok tt,
       {| reducer_id := reducer_id self;
          picklable_contextvars := delete contextvar (picklable_contextvars self);
          auto_register := auto_register self;
          factory_is_copy_context := factory_is_copy_context self |})
  | None => (Raise KeyError, self)
  end.

(** Lines 119-121 of ContextReducer.register_contextvar: the module is
    imported unless it was given as an object, then the name is looked up. *)
Definition lookup_global (st : Process) (module : module_arg)
    (modulename qualname : string) : result ref :=
  match (match module with
         | ModuleObject m _ => Ok m
         | ModulePath _ => import_module st modulename
         end) with
  | Raise e => Raise e
  | Ok m =>
      match _getattribute st m qualname with
      | Raise e => Raise e
      | Ok (v, _) => Ok v
      end
  end.

(** The validation of ContextReducer.register_contextvar (lines 118-123). *)
Definition validate_contextvar (st : Process) (contextvar : ref) (module : module_arg)
    (modulename qualname : string) : result unit :=
  match lookup_global st module modulename qualname with
  | Raise e => Raise e
  | Ok v => if decide (v = contextvar) then Ok tt else Raise ValueError
  end.

(** The name a module argument stands for (lines 112-115). *)
Definition module_name (module : module_arg) : string :=
  match module with
  | ModuleObject _ name => name
  | ModulePath path => path
  end.

(** The activation at the end of ContextReducer.register_contextvar:
    copyreg.pickle(contextvars.Context, self), and the two stackless flags
    when stackless can be imported. *)
Definition activate (self : ContextReducer) (st : Process) : Process :=
  {| heap := heap st;
     sys_modules := sys_modules st;
     current_context := current_context st;
     copyreg_calls := reducer_id self :: copyreg_calls st;
     stackless :=
       match stackless st with
       | None => None
       | Some s =>
           let flag := PICKLEFLAGS_PICKLE_CONTEXT s in
           Some (pickle_flags_default flag flag (pickle_flags flag flag s))
       end |}.

(** ContextReducer.register_contextvar *)
Definition ContextReducer_register_contextvar (self : ContextReducer) (contextvar : ref)
    (module : module_arg) (qualname : option string) (validate : bool) (st : Process)
  : result unit * ContextReducer * Process :=
  match contextvar_name st contextvar with
  | None => (Raise TypeError, self, st)
  | Some name =>
      let modulename := module_name module in
      let qualname := default name qualname in
      match (if validate
             then validate_contextvar st contextvar module modulename qualname
             else Ok tt) with
      | Raise e => (Raise e, self, st)
      | Ok _ =>
          let registry := <[contextvar := (modulename, qualname)]> (picklable_contextvars self) in
          if auto_register self then
            (Ok tt,
             {| reducer_id := reducer_id self;
                picklable_contextvars := registry;
                auto_register := false;
                factory_is_copy_context := factory_is_copy_context self |},
             activate self st)
          else
            (Ok tt,
             {| reducer_id := reducer_id self;
                picklable_contextvars := registry;
                auto_register := auto_register self;
                factory_is_copy_context := factory_is_copy_context self |},
             st)
      end
  end.

(** The module after its import: the global default_context_reducer and
    the process it lives in. *)
Record Program := MkProgram {
  default_context_reducer : ContextReducer;
  process : Process
}.

(** Line 142: default_context_reducer =
    ContextReducer(auto_register=True, factory_is_copy_context=True);
    id is the identity of the new object. *)
Definition import_cvpickle (id : ref) (st : Process) : Program :=
  {| default_context_reducer := ContextReducer_init id true true;
     process := st |}.

(** cvpickle.register_contextvar *)
Definition register_contextvar (contextvar : ref) (module : module_arg)
    (qualname : option string) (validate : bool) (p : Program) : result unit * Program :=
  let '(r, self, st) :=
    ContextReducer_register_contextvar (default_context_reducer p) contextvar module
      qualname validate (process p) in
  (r, {| default_context_reducer := self; process := st |}).

(** cvpickle.unregister_contextvar *)
Definition unregister_contextvar (contextvar : ref) (p : Program) : result unit * Program :=
  let '(r, self) :=
    ContextReducer_unregister_contextvar (default_context_reducer p) contextvar in
  (r, {| default_context_reducer := self; process := process p |}).

(** A call of one of the two module-level functions. *)
Inductive call :=
| CallRegister (contextvar : ref) (module : module_arg) (qualname : option string)
    (validate : bool)
| CallUnregister (contextvar : ref).

Definition run_call (c : call) (p : Program) : result unit * Program :=
  match c with
  | CallRegister contextvar module qualname validate =>
      register_contextvar contextvar module qualname validate p
  | CallUnregister contextvar => unregister_contextvar contextvar p
  end.

(** A sequence of such calls, each caller going on after an exception;
    gives the outcomes in order and the final state. *)
Fixpoint run_calls (cs : list call) (p : Program) : list (result unit) * Program :=
  match cs with
  | [] => ([], p)
  | c :: rest =>
      let '(r, p') := run_call c p in
      let '(rs, p'') := run_calls rest p' in
      (r :: rs, p'')
  end.

Section iteration.
(** context.items() and mapping.items(): the order in which a Context and
    a dict yield their entries is fixed by the interpreter, not by this
    module, so the code is read for any such order. *)
Variable context_items : gmap ref ref → list (ref * ref).
Variable dict_items : gmap (string * string) ref → list ((string * string) * ref).

(** The function set_vars of _context_factory, over mapping.items(). *)
Fixpoint set_vars (items : list ((string * string) * ref)) : M unit :=
  match items with
  | [] => ret tt
  | ((modulename, qualname), value) :: rest =>
      let* module := read (λ st, import_module st modulename) in
      let* cv := read (λ st, _getattribute st module qualname) in
      let* _ := ContextVar_set (cv.1) value in
      set_vars rest
  end.

(** _context_factory(cls, mapping) *)
Definition _context_factory (cls : selector) (mapping : gmap (string * string) ref)
  : M Context :=
  λ st,
    let context := new_context cls st in
    match Context_run context (set_vars (dict_items mapping)) st with
    | ((Ok _, context'), st') => (Ok context', st')
    | ((Raise e, _), st') => (Raise e, st')
    end.

(** ContextReducer.__call__: the callable and its argument tuple. *)
Definition ContextReducer_call (self : ContextReducer) (context : pyarg)
  : result ((selector → gmap (string * string) ref → M Context)
            * (selector * gmap (string * string) ref)) :=
  match context with
  | ArgObject _ => Raise TypeError
  | ArgContext c =>
      let cvars := reduce_items (picklable_contextvars self) (context_items (ctx_vars c)) in
      Ok (_context_factory, (select_cls self c, cvars))
  end.
End iteration.

(** ** Notions the properties are stated with *)

(** The variable a reference resolves to, None when resolution raises. *)
Definition resolved (st : Process) (r : string * string) : option ref :=
  match resolve st r.1 r.2 with
  | Ok cv => Some cv
  | Raise _ => None
  end.

(** Both loops of the module have one shape: the reducer moves the value of
    a context variable to the variable's reference, set_vars moves the value
    of a reference to the variable it resolves to.  One turn of such a loop,
    f sending the old key to the new one: *)
Definition relabel_step {K K' V : Type} `{Countable K'} (f : K → option K')
    (acc : gmap K' V) (item : K * V) : gmap K' V :=
  let '(k, v) := item in
  match f k with
  | Some k' => <[k' := v]> acc
  | None => acc
  end.

(** Whether one of the calls was a registration that returned. *)
Definition is_registration (c : call) : bool :=
  match c with
  | CallRegister _ _ _ _ => true
  | CallUnregister _ => false
  end.
Definition is_ok {A} (r : result A) : bool :=
  match r with
  | Ok _ => true
  | Raise _ => false
  end.
Definition registration_succeeded (cs : list call) (outcomes : list (result unit)) : bool :=
  existsb (λ co, is_registration co.1 && is_ok co.2) (zip cs outcomes).

(** Every bit of mask is set in flags. *)
Definition flags_set (flags mask : Z) : Prop := Z.land flags mask = mask.

(** Two iteration orders to evaluate the code with: the order in which the
    finite map lists its entries, and the same backwards. *)
Definition items_by_key {K V : Type} `{Countable K} (m : gmap K V) : list (K * V) :=
  map_to_list m.
Definition items_backwards {K V : Type} `{Countable K} (m : gmap K V) : list (K * V) :=
  reverse (map_to_list m).

(** A small process to evaluate the code in: a module m with the globals
    a and b bound to two context variables and ns bound to a namespace
    whose attribute c is the second variable again; stackless present. *)
Definition example_process : Process :=
  {| heap := {[ 0 := PyObj Other {[ "a" := 1; "b" := 2; "ns" := 3 ]};
                1 := PyObj (ContextVar "a") ∅;
                2 := PyObj (ContextVar "b") ∅;
                3 := PyObj Other {[ "c" := 2 ]} ]};
     sys_modules := {[ "m" := 0 ]};
     current_context := MkContext BaseContext {[ 2 := 7 ]};
     copyreg_calls := [];
     stackless := Some (MkStackless 8 3 0) |}.

(** The context keys that have an entry in the registry, with their values. *)
Definition registered_items (registry : gmap ref (string * string))
    (vars : gmap ref ref) : list (ref * ref) :=
  filter (λ item, is_Some (registry !! item.1)) (map_to_list vars).

(** The map holds exactly the (reference, value) pairs of the context keys
    that have an entry in the registry. *)
Definition exact_pairs (registry : gmap ref (string * string)) (vars : gmap ref ref)
    (cvars : gmap (string * string) ref) : Prop :=
  ∀ r v, cvars !! r = Some v ↔ ∃ cv, vars !! cv = Some v ∧ registry !! cv = Some r.

(** No two keys of the context are registered under one reference. *)
Definition collision_free (registry : gmap ref (string * string))
    (vars : gmap ref ref) : Prop :=
  ∀ cv1 cv2 r, is_Some (vars !! cv1) → is_Some (vars !! cv2) →
               registry !! cv1 = Some r → registry !! cv2 = Some r → cv1 = cv2.

(** In the process st, the reference of every registered key of the context
    resolves to that very object, and the object is a context variable. *)
Definition resolves_back (st : Process) (registry : gmap ref (string * string))
    (vars : gmap ref ref) : Prop :=
  ∀ cv modulename qualname,
    is_Some (vars !! cv) → registry !! cv = Some (modulename, qualname) →
    resolve st modulename qualname = Ok cv ∧ is_Some (contextvar_name st cv).

(** Reducing the context and calling the returned callable on the returned
    arguments in the process st gives a context in which every registered
    variable of the original context has its original value. *)
Definition round_trip (context_items : gmap ref ref → list (ref * ref))
    (dict_items : gmap (string * string) ref → list ((string * string) * ref))
    (self : ContextReducer) (c : Context) (st : Process) : Prop :=
  ∃ f cls cvars context' st',
    ContextReducer_call context_items dict_items self (ArgContext c)
    = Ok (f, (cls, cvars))
    ∧ f cls cvars st = (Ok context', st')
    ∧ ∀ cv v, is_Some (picklable_contextvars self !! cv) →
              ctx_vars c !! cv = Some v → ctx_vars context' !! cv = Some v.

(** A reducer in which two variables share the reference m.a, and a context
    holding both. *)
Definition colliding_reducer : ContextReducer :=
  MkContextReducer 9 {[ 1 := ("m", "a"); 2 := ("m", "a") ]} false false.
Definition colliding_context : Context :=
  MkContext BaseContext {[ 1 := 10; 2 := 20 ]}.

(** A reducer in which both variables of the example process are
    registered under names that resolve to them, and a context holding
    both. *)
Definition validated_reducer : ContextReducer :=
  MkContextReducer 9 {[ 1 := ("m", "a"); 2 := ("m", "ns.c") ]} false true.
Definition validated_context : Context :=
  MkContext BaseContext {[ 1 := 10; 2 := 20 ]}.

(** A reducer in which the first variable is registered under the name of
    the second, and a context holding the first. *)
Definition misnamed_reducer : ContextReducer :=
  MkContextReducer 9 {[ 1 := ("m", "b") ]} false true.
Definition misnamed_context : Context :=
  MkContext BaseContext {[ 1 := 10 ]}.

(** Every reference of the registry resolves, in the process st, to the
    variable it is registered for, and that object is a context variable. *)
Definition registry_resolves (st : Process) (registry : gmap ref (string * string))
  : Prop :=
  ∀ cv modulename qualname,
    registry !! cv = Some (modulename, qualname) →
    resolve st modulename qualname = Ok cv ∧ is_Some (contextvar_name st cv).

(** A call that cannot store an unchecked reference: an unregistration, or
    a registration by module name with validate true. *)
Definition validated_by_path (c : call) : bool :=
  match c with
  | CallRegister _ (ModulePath _) _ true => true
  | CallRegister _ _ _ _ => false
  | CallUnregister _ => true
  end.


(** ** Loops that move values from one key to another *)

Section relabel.
Context {K K' V : Type} `{Countable K} `{Countable K'}.
Variable f : K → option K'.

(** Every entry of the result was in the accumulator or comes from an item
    whose key is sent to the entry's key. *)
Lemma relabel_sound (items : list (K * V)) acc k' v :
  foldl (relabel_step f) acc items !! k' = Some v →
  acc !! k' = Some v ∨ ∃ k, (k, v) ∈ items ∧ f k = Some k'.
Proof.
  revert acc. induction items as [|[k0 v0] items IH]; intros acc Hr; simpl in *.
  { by left. }
  apply IH in Hr as [Hr | (k & Hin & Hk)].
  - destruct (f k0) as [k0'|] eqn:Hk0; [|by left].
    destruct (decide (k0' = k')) as [->|Hne].
    + rewrite lookup_insert_eq in Hr. injection Hr as ->.
      right. exists k0. split; [apply list_elem_of_here | done].
    + rewrite lookup_insert_ne in Hr by done. by left.
  - right. exists k. split; [by apply list_elem_of_further | done].
Qed.

(** Items whose keys are not sent to k' leave the entry of k' alone. *)
Lemma relabel_untouched (items : list (K * V)) acc k' :
  (∀ k v, (k, v) ∈ items → f k ≠ Some k') →
  foldl (relabel_step f) acc items !! k' = acc !! k'.
Proof.
  revert acc. induction items as [|[k0 v0] items IH]; intros acc Hno; simpl; [done|].
  rewrite IH.
  - destruct (f k0) as [k0'|] eqn:Hk0; [|done].
    apply lookup_insert_ne. intros ->.
    by apply (Hno k0 v0); [apply list_elem_of_here|].
  - intros k v Hin. apply (Hno k v). by apply list_elem_of_further.
Qed.

(** The keys of the result are those of the accumulator and the images of
    the items' keys. *)
Lemma relabel_dom (items : list (K * V)) acc :
  dom (foldl (relabel_step f) acc items)
  = dom acc ∪ list_to_set (omap (λ item, f item.1) items).
Proof.
  revert acc. induction items as [|[k0 v0] items IH]; intros acc; simpl.
  { set_solver. }
  rewrite IH. destruct (f k0) as [k0'|] eqn:Hk0; simpl.
  - rewrite dom_insert_L. set_solver.
  - done.
Qed.

(** With distinct keys of which only k is sent to k', the entry of k'
    carries the value of k. *)
Lemma relabel_complete (items : list (K * V)) acc k v k' :
  NoDup items.*1 →
  (∀ k0 v0, (k0, v0) ∈ items → f k0 = Some k' → k0 = k) →
  (k, v) ∈ items → f k = Some k' →
  foldl (relabel_step f) acc items !! k' = Some v.
Proof.
  revert acc. induction items as [|[k0 v0] items IH]; intros acc Hnd Hinj Hin Hk.
  { by apply elem_of_nil in Hin. }
  simpl in *. apply NoDup_cons in Hnd as [Hfresh Hnd].
  apply elem_of_cons in Hin as [Heq | Hin].
  - injection Heq as <- <-. rewrite relabel_untouched.
    + by rewrite Hk, lookup_insert_eq.
    + intros k1 v1 Hin1 Hk1.
      assert (k1 = k) as ->
        by (apply (Hinj k1 v1); [by apply list_elem_of_further|done]).
      apply Hfresh. apply list_elem_of_fmap. by exists (k, v1).
  - apply IH; [done| |done|done].
    intros k1 v1 Hin1 Hk1.
    apply (Hinj k1 v1); [by apply list_elem_of_further|done].
Qed.

(** Two items with distinct keys sent to one key: the images repeat. *)
Lemma relabel_collision (items : list (K * V)) k1 v1 k2 v2 k' :
  (k1, v1) ∈ items → (k2, v2) ∈ items → k1 ≠ k2 →
  f k1 = Some k' → f k2 = Some k' →
  ¬ NoDup (omap (λ item, f item.1) items).
Proof.
  intros Hin1 Hin2 Hne Hk1 Hk2.
  apply list_elem_of_split in Hin1 as (l1 & l2 & ->).
  assert ((k2, v2) ∈ l1 ∨ (k2, v2) ∈ l2) as Hin2'.
  { apply elem_of_app in Hin2 as [?|Hin2]; [by left|].
    apply elem_of_cons in Hin2 as [Heq|?]; [congruence|by right]. }
  assert (∀ l : list (K * V), (k2, v2) ∈ l → k' ∈ omap (λ item, f item.1) l) as Himg.
  { intros l Hl. apply list_elem_of_omap. by exists (k2, v2). }
  rewrite omap_app. simpl. rewrite Hk1. intros Hnd.
  apply NoDup_app in Hnd as (_ & Hdisj & Hnd).
  apply NoDup_cons in Hnd as [Hfresh _].
  destruct Hin2' as [Hl|Hl]; apply Himg in Hl.
  - apply (Hdisj k' Hl). apply list_elem_of_here.
  - by apply Hfresh.
Qed.

(** When some item is sent to k', the entry of k' carries the value of
    such an item. *)
Lemma relabel_defined (items : list (K * V)) acc k v k' :
  (k, v) ∈ items → f k = Some k' →
  ∃ k0 v0, (k0, v0) ∈ items ∧ f k0 = Some k'
           ∧ foldl (relabel_step f) acc items !! k' = Some v0.
Proof.
  revert acc k v. induction items as [|[k1 v1] items IH]; intros acc k v Hin Hk.
  { by apply elem_of_nil in Hin. }
  destruct (decide (Exists (λ item, f item.1 = Some k') items)) as [Hex|Hno].
  - apply Exists_exists in Hex as ([k2 v2] & Hin2 & Hk2).
    destruct (IH (relabel_step f acc (k1, v1)) k2 v2 Hin2 Hk2)
      as (k0 & v0 & Hin0 & Hk0 & Hl).
    exists k0, v0. split; [by apply list_elem_of_further|done].
  - assert (∀ k2 v2, (k2, v2) ∈ items → f k2 ≠ Some k') as Hrest.
    { intros k2 v2 Hin2 Hk2. apply Hno, Exists_exists. by exists (k2, v2). }
    apply elem_of_cons in Hin as [[= <- <-]|Hin]; [|by destruct (Hrest k v Hin)].
    exists k, v. split; [apply list_elem_of_here|]. split; [done|].
    simpl. rewrite relabel_untouched by done.
    by rewrite Hk, lookup_insert_eq.
Qed.
End relabel.

(** A list with a repeated element has more elements than its set. *)
Lemma size_list_to_set_le `{Countable A} (l : list A) :
  (size (list_to_set l : gset A) ≤ length l)%nat.
Proof.
  induction l as [|x l IH].
  { rewrite list_to_set_nil, size_empty. simpl. lia. }
  rewrite list_to_set_cons, size_union_alt, size_singleton. simpl.
  assert (size (list_to_set l ∖ {[x]} : gset A) ≤ size (list_to_set l : gset A))%nat.
  { apply subseteq_size. set_solver. }
  lia.
Qed.

Lemma size_list_to_set_lt `{Countable A} (l : list A) :
  ¬ NoDup l → (size (list_to_set l : gset A) < length l)%nat.
Proof.
  induction l as [|x l IH]; intros Hdup.
  { destruct Hdup. constructor. }
  rewrite list_to_set_cons. simpl.
  destruct (decide (x ∈ l)) as [Hin|Hnin].
  - assert ({[x]} ∪ list_to_set l = (list_to_set l : gset A)) as -> by set_solver.
    pose proof (size_list_to_set_le l). lia.
  - rewrite size_union by set_solver. rewrite size_singleton.
    assert (¬ NoDup l) as Hl.
    { intros Hl. apply Hdup. by constructor. }
    apply IH in Hl. lia.
Qed.

(** ** Name resolution and the loop of the factory *)



Lemma resolved_Some st r cv :
  resolved st r = Some cv ↔ resolve st r.1 r.2 = Ok cv.
Proof.
  unfold resolved. destruct (resolve st r.1 r.2); split; congruence.
Qed.

(** One turn of the loop of set_vars. *)
Lemma set_vars_cons modulename qualname value rest st :
  set_vars (((modulename, qualname), value) :: rest) st
  = match resolve st modulename qualname with
    | Raise e => (Raise e, st)
    | Ok cv =>
        match contextvar_name st cv with
        | None => (Raise AttributeError, st)
        | Some _ =>
            let c := current_context st in
            set_vars rest
              (set_current_context
                 (MkContext (ctx_type c) (<[cv := value]> (ctx_vars c))) st)
        end
    end.
Proof.
  unfold resolve. simpl. unfold bind, read, ContextVar_set.
  destruct (import_module st modulename) as [m|]; [|done].
  destruct (_getattribute st m qualname) as [[v p]|]; [|done].
  simpl. by destruct (contextvar_name st v).
Qed.

(** set_vars writes nothing but the current context. *)
Lemma set_vars_frame items st r st' :
  set_vars items st = (r, st') →
  ∀ c, set_current_context c st' = set_current_context c st.
Proof.
  revert st. induction items as [|[[m q] v] items IH]; intros st Hrun c.
  { by injection Hrun as <- <-. }
  rewrite set_vars_cons in Hrun.
  destruct (resolve st m q) as [cv|e]; [|by injection Hrun as <- <-].
  destruct (contextvar_name st cv); [|by injection Hrun as <- <-].
  by rewrite (IH _ Hrun c).
Qed.



(** When every reference resolves to a context variable, set_vars returns
    and has moved each value to the variable of its reference. *)
Lemma set_vars_ok items st :
  (∀ r v, (r, v) ∈ items →
          ∃ cv, resolved st r = Some cv ∧ is_Some (contextvar_name st cv)) →
  set_vars items st
  = (Ok tt,
     set_current_context
       (MkContext (ctx_type (current_context st))
          (foldl (relabel_step (resolved st)) (ctx_vars (current_context st)) items))
       st).
Proof.
  revert st. induction items as [|[[m q] v] items IH]; intros st Hall.
  { by destruct st as [? ? [? ?] ? ?]. }
  rewrite set_vars_cons.
  destruct (Hall (m, q) v) as (cv & Hcv & [name Hname]); [apply list_elem_of_here|].
  pose proof Hcv as Hres. apply resolved_Some in Hres. simpl in Hres.
  rewrite Hres, Hname. simpl. rewrite IH.
  - simpl. by rewrite Hcv.
  - intros r v' Hin. apply (Hall r v'). by apply list_elem_of_further.
Qed.

(** When set_vars returns, every reference had resolved to a context
    variable. *)
Lemma set_vars_returns items st u st' :
  set_vars items st = (Ok u, st') →
  ∀ r v, (r, v) ∈ items →
         ∃ cv, resolved st r = Some cv ∧ is_Some (contextvar_name st cv).
Proof.
  revert st. induction items as [|[[m q] v0] items IH]; intros st Hrun r v Hin.
  { by apply elem_of_nil in Hin. }
  rewrite set_vars_cons in Hrun.
  destruct (resolve st m q) as [cv|e] eqn:Hres; [|discriminate].
  destruct (contextvar_name st cv) as [name|] eqn:Hname; [|discriminate].
  apply elem_of_cons in Hin as [[= -> ->]|Hin].
  - exists cv. split; [by apply resolved_Some|]. by rewrite Hname.
  - apply (IH _ Hrun r v Hin).
Qed.

(** _context_factory, with context.run unfolded. *)
Lemma context_factory_unfold dict_items cls mapping st :
  _context_factory dict_items cls mapping st
  = match set_vars (dict_items mapping)
            (set_current_context (new_context cls st) st) with
    | (Ok _, st1) =>
        (Ok (current_context st1), set_current_context (current_context st) st1)
    | (Raise e, st1) => (Raise e, set_current_context (current_context st) st1)
    end.
Proof.
  unfold _context_factory, Context_run.
  by destruct (set_vars _ _) as [[u|e] st1].
Qed.

(** After the call the process is what it was before. *)
Lemma context_factory_frame dict_items cls mapping st :
  (_context_factory dict_items cls mapping st).2 = st.
Proof.
  rewrite context_factory_unfold.
  destruct (set_vars _ _) as [r st1] eqn:Hrun.
  pose proof (set_vars_frame _ _ _ _ Hrun (current_context st)) as Hframe.
  assert (set_current_context (current_context st) st1 = st) as Hst.
  { rewrite Hframe. by destruct st. }
  by destruct r.
Qed.

(** ** Iteration orders *)

Lemma reduce_step_relabel registry :
  reduce_step registry = relabel_step (λ cv, registry !! cv).
Proof. reflexivity. Qed.

Lemma length_omap_filter {A B} (g : A → option B) (l : list A) :
  length (omap g l) = length (filter (λ x, is_Some (g x)) l).
Proof.
  induction l as [|x l IH]; [done|].
  rewrite filter_cons. simpl. destruct (g x) as [y|] eqn:Hg.
  - rewrite decide_True by (by eexists). simpl. f_equal. exact IH.
  - rewrite decide_False by (by intros [? ?]). exact IH.
Qed.

Section orders.
Context {K V : Type} `{Countable K}.
Variable items_of : gmap K V → list (K * V).
Hypothesis items_of_perm : ∀ m, items_of m ≡ₚ map_to_list m.

Lemma elem_of_items m k v : (k, v) ∈ items_of m ↔ m !! k = Some v.
Proof. rewrite items_of_perm. apply elem_of_map_to_list. Qed.

Lemma NoDup_fst_items m : NoDup (items_of m).*1.
Proof. rewrite items_of_perm. apply NoDup_fst_map_to_list. Qed.
End orders.

(** ** Registration and activation *)

Lemma update_flags_set old mask : flags_set (update_flags old mask mask) mask.
Proof.
  unfold flags_set, update_flags. apply Z.bits_inj'. intros n Hn.
  rewrite !Z.land_spec, Z.lor_spec, !Z.land_spec, Z.lnot_spec by done.
  by destruct (Z.testbit old n), (Z.testbit mask n).
Qed.

Lemma activate_ext self self' st :
  reducer_id self' = reducer_id self → activate self' st = activate self st.
Proof. unfold activate. by intros ->. Qed.

(** What one call of ContextReducer.register_contextvar leaves behind. *)
Lemma register_contextvar_outcome self contextvar module qualname validate st :
  let '(r, self', st') :=
    ContextReducer_register_contextvar self contextvar module qualname validate st in
  reducer_id self' = reducer_id self
  ∧ match r with
    | Raise _ => self' = self ∧ st' = st
    | Ok _ =>
        auto_register self' = false
        ∧ st' = if auto_register self then activate self st else st
    end.
Proof.
  unfold ContextReducer_register_contextvar.
  destruct (contextvar_name st contextvar) as [name|]; [|done].
  destruct (if validate then _ else _) as [u|e]; [|done].
  by destruct (auto_register self) eqn:Hauto.
Qed.

(** Whether the default reducer has been activated yet, over a sequence of
    calls of the module-level functions. *)
Lemma run_calls_activation cs p :
  let '(outcomes, p') := run_calls cs p in
  let self := default_context_reducer p in
  reducer_id (default_context_reducer p') = reducer_id self
  ∧ if auto_register self && registration_succeeded cs outcomes
    then process p' = activate self (process p)
         ∧ auto_register (default_context_reducer p') = false
    else process p' = process p
         ∧ auto_register (default_context_reducer p')
           = auto_register self && negb (registration_succeeded cs outcomes).
Proof.
  revert p. induction cs as [|c cs IH]; intros p; simpl.
  { split; [done|]. rewrite andb_false_r, andb_true_r. done. }
  destruct (run_call c p) as [r p1] eqn:Hcall.
  specialize (IH p1). destruct (run_calls cs p1) as [outcomes p2].
  unfold registration_succeeded in *. simpl.
  destruct IH as [Hid IH].
  destruct c as [contextvar module qualname validate|contextvar]; simpl in Hcall.
  - unfold register_contextvar in Hcall.
    pose proof (register_contextvar_outcome (default_context_reducer p) contextvar
                  module qualname validate (process p)) as Hout.
    destruct (ContextReducer_register_contextvar _ _ _ _ _ _) as [[r' self1] st1].
    injection Hcall as -> <-. simpl in *. destruct Hout as [Hid1 Hout].
    split; [congruence|].
    destruct r as [u|e]; simpl.
    + destruct Hout as [Hauto1 ->]. rewrite Hauto1 in IH. simpl in IH.
      destruct IH as [-> ->].
      destruct (auto_register (default_context_reducer p)); simpl; [done|].
      split; [done|]. done.
    + destruct Hout as [-> ->].
      exact IH.
  - unfold unregister_contextvar, ContextReducer_unregister_contextvar in Hcall.
    destruct (picklable_contextvars (default_context_reducer p) !! contextvar);
      injection Hcall as <- <-; simpl in *; (split; [done|]); exact IH.
Qed.

(** * The properties *)

Section properties.
Variable context_items : gmap ref ref → list (ref * ref).
Variable dict_items : gmap (string * string) ref → list ((string * string) * ref).
(** Iterating yields every entry once, in whatever order. *)
Hypothesis context_items_perm : ∀ m, context_items m ≡ₚ map_to_list m.
Hypothesis dict_items_perm : ∀ m, dict_items m ≡ₚ map_to_list m.

Abbreviation reduce := (ContextReducer_call context_items dict_items).
Abbreviation reconstruct := (_context_factory dict_items).

(** C8. Reduce input validation: called with an argument that is not a
    Context the reducer raises TypeError; called with a Context it returns
    a reduction and so raises no TypeError. *)
Theorem reduce_input_validation (self : ContextReducer) :
  (∀ o, reduce self (ArgObject o) = Raise TypeError)
  ∧ (∀ c, ∃ reduction, reduce self (ArgContext c) = Ok reduction).
Proof.
  split.
  - done.
  - intros c. simpl. eauto.
Qed.

(** C3. Strategy selection: a reducer with factory_is_copy_context true
    gives contextvars.copy_context as selector whatever the type of the
    context; a reducer with the flag false gives None for a context whose
    type is contextvars.Context itself, and the type of the context for a
    context of a subclass. *)
Theorem strategy_selection (id : ref) (registry : gmap ref (string * string))
    (auto : bool) (vars : gmap ref ref) :
  (∀ cls, ∃ cvars,
      reduce (MkContextReducer id registry auto true) (ArgContext (MkContext cls vars))
      = Ok (reconstruct, (Some CopyContext, cvars)))
  ∧ (∃ cvars,
      reduce (MkContextReducer id registry auto false)
        (ArgContext (MkContext BaseContext vars))
      = Ok (reconstruct, (None, cvars)))
  ∧ (∀ name, ∃ cvars,
      reduce (MkContextReducer id registry auto false)
        (ArgContext (MkContext (SubContext name) vars))
      = Ok (reconstruct, (Some (ContextClass (SubContext name)), cvars))).
Proof.
  repeat split; intros; eexists; reflexivity.
Qed.

(** C9. Unregister semantics: for a variable with an entry, unregister
    returns and the registry afterwards lacks that entry and has every other
    entry as before; for a variable without an entry it raises KeyError and
    leaves the reducer as it was. *)
Theorem unregister_semantics (self : ContextReducer) (contextvar : ref) :
  match picklable_contextvars self !! contextvar with
  | Some _ =>
      ∃ self', ContextReducer_unregister_contextvar self contextvar = (Ok tt, self')
        ∧ (∀ cv, picklable_contextvars self' !! cv
                 = if decide (cv = contextvar) then None
                   else picklable_contextvars self !! cv)
        ∧ reducer_id self' = reducer_id self
        ∧ auto_register self' = auto_register self
        ∧ factory_is_copy_context self' = factory_is_copy_context self
  | None => ContextReducer_unregister_contextvar self contextvar = (Raise KeyError, self)
  end.
Proof.
  unfold ContextReducer_unregister_contextvar.
  destruct (picklable_contextvars self !! contextvar) as [r|] eqn:Hreg; [|done].
  eexists. split; [done|]. simpl. split; [|done].
  intros cv. case_decide as Hcv.
  - subst. apply lookup_delete_eq.
  - by apply lookup_delete_ne.
Qed.

(** C4. Registration validation and atomicity: when validate is true and
    the module and name resolve to a live object that is not the variable
    itself, register_contextvar raises ValueError and leaves the reducer,
    its registry included, and the process as they were. *)
Theorem register_validation_mismatch (self : ContextReducer) (contextvar : ref)
    (module : module_arg) (qualname : option string) (st : Process)
    (name : string) (v : ref) :
  contextvar_name st contextvar = Some name →
  lookup_global st module (module_name module) (default name qualname) = Ok v →
  v ≠ contextvar →
  ContextReducer_register_contextvar self contextvar module qualname true st
  = (Raise ValueError, self, st).
Proof.
  intros Hname Hlookup Hne.
  unfold ContextReducer_register_contextvar, validate_contextvar.
  rewrite Hname, Hlookup. by rewrite decide_False.
Qed.

(** C6. Reconstruction isolation: after the factory has returned or
    raised, the process, and with it the current context and the values of
    all variables in it, is what it was before the call; the values of the
    mapping went into the context the factory returns: every variable a
    reference resolves to has there the value of a reference that resolves
    to it. *)
Theorem reconstruction_isolation (cls : selector)
    (mapping : gmap (string * string) ref) (st : Process) :
  (reconstruct cls mapping st).2 = st
  ∧ current_context (reconstruct cls mapping st).2 = current_context st
  ∧ match (reconstruct cls mapping st).1 with
    | Ok context =>
        ∀ r v cv, mapping !! r = Some v → resolved st r = Some cv →
          ∃ r' v', mapping !! r' = Some v' ∧ resolved st r' = Some cv
                   ∧ ctx_vars context !! cv = Some v'
    | Raise _ => True
    end.
Proof.
  split; [apply context_factory_frame|].
  split; [by rewrite context_factory_frame|].
  rewrite context_factory_unfold.
  set (st0 := set_current_context (new_context cls st) st).
  destruct (set_vars (dict_items mapping) st0) as [[u|e] st1] eqn:Hrun; [|done].
  simpl. intros r v cv Hentry Hcv.
  pose proof (set_vars_returns _ _ _ _ Hrun) as Hall.
  rewrite (set_vars_ok _ _ Hall) in Hrun. injection Hrun as _ <-. simpl.
  assert ((r, v) ∈ dict_items mapping) as Hin.
  { rewrite dict_items_perm. by apply elem_of_map_to_list. }
  destruct (relabel_defined (resolved st0) (dict_items mapping)
              (ctx_vars (new_context cls st)) r v cv Hin Hcv)
    as (r' & v' & Hin' & Hcv' & Hlookup).
  exists r', v'. split; [|done].
  apply elem_of_map_to_list. by rewrite <- dict_items_perm.
Qed.
(** The entries of cvars come from registered keys of the context. *)
Lemma reduce_items_sound registry vars r v :
  reduce_items registry (context_items vars) !! r = Some v →
  ∃ cv, vars !! cv = Some v ∧ registry !! cv = Some r.
Proof.
  unfold reduce_items. rewrite reduce_step_relabel. intros Hr.
  apply relabel_sound in Hr as [Hr|(cv & Hin & Hreg)]; [by rewrite lookup_empty in Hr|].
  exists cv. split; [|done]. by eapply elem_of_items.
Qed.

(** The reference of every registered key of the context is in cvars. *)
Lemma reduce_items_defined registry vars cv v r :
  vars !! cv = Some v → registry !! cv = Some r →
  ∃ cv0 v0, vars !! cv0 = Some v0 ∧ registry !! cv0 = Some r
            ∧ reduce_items registry (context_items vars) !! r = Some v0.
Proof.
  intros Hcv Hreg. unfold reduce_items. rewrite reduce_step_relabel.
  assert ((cv, v) ∈ context_items vars) as Hin by by apply elem_of_items.
  destruct (relabel_defined (λ cv, registry !! cv) _ ∅ cv v r Hin Hreg)
    as (cv0 & v0 & Hin0 & Hreg0 & Hl).
  exists cv0, v0. split; [|done]. by eapply elem_of_items.
Qed.

(** Without collisions cvars holds the pair of every registered key. *)
Lemma reduce_items_complete registry vars cv v r :
  (∀ cv0, is_Some (vars !! cv0) → registry !! cv0 = Some r → cv0 = cv) →
  vars !! cv = Some v → registry !! cv = Some r →
  reduce_items registry (context_items vars) !! r = Some v.
Proof.
  intros Hinj Hcv Hreg. unfold reduce_items. rewrite reduce_step_relabel.
  apply (relabel_complete _ _ _ cv); [by apply NoDup_fst_items| |by apply elem_of_items|done].
  intros cv0 v0 Hin0 Hreg0. apply Hinj; [|done].
  exists v0. by eapply elem_of_items.
Qed.

(** C2, as amended. Privacy boundary: reducing a Context never raises;
    every entry of the reference-value map is the (reference, value) pair
    of a context key that has an entry in the registry at that moment, so
    no entry stems from an unregistered key; the reference of every
    registered context key is in the map; when no two context keys are
    registered under one reference, the map holds exactly the pairs of the
    registered context keys; and once a variable has been unregistered, the
    entries of the map all stem from other keys of the context. *)
Theorem privacy_boundary (self : ContextReducer) (c : Context) :
  let registry := picklable_contextvars self in
  ∃ cvars,
    reduce self (ArgContext c) = Ok (reconstruct, (select_cls self c, cvars))
    ∧ (∀ r v, cvars !! r = Some v →
              ∃ cv, ctx_vars c !! cv = Some v ∧ registry !! cv = Some r)
    ∧ (∀ cv v r, ctx_vars c !! cv = Some v → registry !! cv = Some r →
                 is_Some (cvars !! r))
    ∧ (collision_free registry (ctx_vars c) → exact_pairs registry (ctx_vars c) cvars)
    ∧ (∀ contextvar self',
         ContextReducer_unregister_contextvar self contextvar = (Ok tt, self') →
         ∃ cvars',
           reduce self' (ArgContext c) = Ok (reconstruct, (select_cls self' c, cvars'))
           ∧ ∀ r v, cvars' !! r = Some v →
                    ∃ cv, cv ≠ contextvar ∧ ctx_vars c !! cv = Some v
                          ∧ registry !! cv = Some r).
Proof.
  cbv zeta. eexists. split; [reflexivity|].
  split; [apply reduce_items_sound|].
  split.
  { intros cv v r Hcv Hreg.
    destruct (reduce_items_defined _ _ _ _ _ Hcv Hreg) as (? & v0 & _ & _ & Hr).
    exists v0. exact Hr. }
  split.
  { intros Hfree r v. split; [apply reduce_items_sound|].
    intros (cv & Hcv & Hreg). apply (reduce_items_complete _ _ cv); [|done|done].
    intros cv0 Hcv0 Hreg0. by apply (Hfree cv0 cv r). }
  intros contextvar self' Hun. unfold ContextReducer_unregister_contextvar in Hun.
  destruct (picklable_contextvars self !! contextvar); [|discriminate].
  injection Hun as <-.
  eexists. split; [reflexivity|]. simpl. intros r v Hr.
  apply reduce_items_sound in Hr as (cv & Hcv & Hreg).
  apply lookup_delete_Some in Hreg as [Hne Hreg]. by exists cv.
Qed.

(** C10. Collision of references: when two distinct variables are
    registered under one reference and a context holds both, the map has
    for that reference one entry, carrying the value of a context key
    registered under it (of one of the two when no further context key
    shares the reference), and the map has fewer entries than the context
    has registered keys. *)
Theorem reference_collision (self : ContextReducer) (c : Context)
    (cv1 cv2 v1 v2 : ref) (r : string * string) :
  let registry := picklable_contextvars self in
  cv1 ≠ cv2 →
  registry !! cv1 = Some r → registry !! cv2 = Some r →
  ctx_vars c !! cv1 = Some v1 → ctx_vars c !! cv2 = Some v2 →
  ∃ cvars v,
    reduce self (ArgContext c) = Ok (reconstruct, (select_cls self c, cvars))
    ∧ cvars !! r = Some v
    ∧ (∃ cv, ctx_vars c !! cv = Some v ∧ registry !! cv = Some r)
    ∧ ((∀ cv, is_Some (ctx_vars c !! cv) → registry !! cv = Some r →
              cv = cv1 ∨ cv = cv2) → v = v1 ∨ v = v2)
    ∧ size cvars < length (registered_items registry (ctx_vars c)).
Proof.
  cbv zeta. intros Hne Hreg1 Hreg2 Hcv1 Hcv2.
  destruct (reduce_items_defined _ _ _ _ _ Hcv1 Hreg1)
    as (cv & v & Hcv & Hreg & Hr).
  eexists _, v. split; [reflexivity|]. split; [done|].
  split; [by exists cv|]. split.
  { intros Honly. destruct (Honly cv) as [Heq | Heq]; [by rewrite Hcv|done| |]; subst cv.
    - left. congruence.
    - right. congruence. }
  rewrite <- size_dom. unfold reduce_items. rewrite reduce_step_relabel, relabel_dom.
  rewrite dom_empty_L, (left_id_L ∅ (∪)).
  eapply Nat.lt_le_trans.
  { apply size_list_to_set_lt.
    apply (relabel_collision (λ cv, picklable_contextvars self !! cv) _
             cv1 v1 cv2 v2 r); [| |done..];
      by apply elem_of_items. }
  rewrite length_omap_filter. unfold registered_items.
  by rewrite context_items_perm.
Qed.

(** C1, as amended. Round trip: for a context whose keys are all
    registered, reconstructed in a process in which the reference of every
    registered key of the context resolves to that key, a context variable,
    calling the reducer and then the returned factory on the returned
    arguments gives a context in which every registered variable of the
    original has its original value. *)
Theorem round_trip_resolving (self : ContextReducer) (c : Context) (st : Process) :
  dom (ctx_vars c) ⊆ dom (picklable_contextvars self) →
  resolves_back st (picklable_contextvars self) (ctx_vars c) →
  round_trip context_items dict_items self c st.
Proof.
  intros Hreg Hback. unfold round_trip. simpl.
  set (registry := picklable_contextvars self) in *.
  set (cvars := reduce_items registry (context_items (ctx_vars c))).
  set (cls := select_cls self c).
  set (st0 := set_current_context (new_context cls st) st).
  assert (∀ r v, cvars !! r = Some v →
                 ∃ cv, ctx_vars c !! cv = Some v ∧ registry !! cv = Some r
                       ∧ resolved st0 r = Some cv
                       ∧ is_Some (contextvar_name st0 cv)) as Hentries.
  { intros [m q] v Hr. apply reduce_items_sound in Hr as (cv & Hcv & Hr).
    destruct (Hback cv m q) as [Hres Hname]; [by rewrite Hcv|done|].
    exists cv. repeat split; [done|done| |done].
    by apply resolved_Some. }
  assert (∀ r v, (r, v) ∈ dict_items cvars →
                 ∃ cv, resolved st0 r = Some cv
                       ∧ is_Some (contextvar_name st0 cv)) as Hall.
  { intros r v Hin. apply (elem_of_items _ dict_items_perm) in Hin.
    destruct (Hentries r v Hin) as (cv & _ & _ & ? & ?). by exists cv. }
  eexists _, cls, cvars, _, _. split; [reflexivity|].
  rewrite context_factory_unfold. fold st0. rewrite (set_vars_ok _ _ Hall).
  split; [reflexivity|]. simpl.
  intros cv v _ Hcv.
  assert (is_Some (registry !! cv)) as [[m q] Hr].
  { apply elem_of_dom, Hreg, elem_of_dom. by rewrite Hcv. }
  destruct (Hback cv m q) as [Hres Hname]; [by rewrite Hcv|done|].
  assert (cvars !! (m, q) = Some v) as Hentry.
  { apply (reduce_items_complete _ _ cv); [|done|done].
    intros cv0 Hcv0 Hr0. destruct (Hback cv0 m q Hcv0 Hr0) as [Hres0 _]. congruence. }
  apply (relabel_complete _ _ _ (m, q)).
  - by apply NoDup_fst_items.
  - intros r0 v0 Hin0 Hres0. apply (elem_of_items _ dict_items_perm) in Hin0.
    destruct (Hentries r0 v0 Hin0) as (cv0 & _ & Hr0 & Hres0' & _).
    assert (cv0 = cv) as -> by congruence. unfold registry in *. congruence.
  - by apply (elem_of_items _ dict_items_perm).
  - by apply resolved_Some.
Qed.
(** C7. One-time auto-activation: over any sequence of calls of the
    module-level register_contextvar and unregister_contextvar after the
    import of the module, as soon as one registration has returned the
    default reducer is installed by exactly one call of copyreg.pickle and,
    when stackless can be imported, both flag words have the context flag
    set; however many registrations follow there is no second call; and as
    long as no registration has returned, failed ones included, the process
    is untouched. *)
Theorem auto_activation_once (id : ref) (st : Process) (cs : list call) :
  let '(outcomes, p) := run_calls cs (import_cvpickle id st) in
  reducer_id (default_context_reducer p) = id
  ∧ if registration_succeeded cs outcomes
    then copyreg_calls (process p) = id :: copyreg_calls st
         ∧ heap (process p) = heap st
         ∧ sys_modules (process p) = sys_modules st
         ∧ current_context (process p) = current_context st
         ∧ match stackless st with
           | None => stackless (process p) = None
           | Some s =>
               ∃ s', stackless (process p) = Some s'
                     ∧ PICKLEFLAGS_PICKLE_CONTEXT s' = PICKLEFLAGS_PICKLE_CONTEXT s
                     ∧ flags_set (flags_current s') (PICKLEFLAGS_PICKLE_CONTEXT s)
                     ∧ flags_set (flags_default s') (PICKLEFLAGS_PICKLE_CONTEXT s)
           end
    else process p = st
         ∧ auto_register (default_context_reducer p) = true.
Proof.
  pose proof (run_calls_activation cs (import_cvpickle id st)) as Hinv.
  destruct (run_calls cs (import_cvpickle id st)) as [outcomes p].
  simpl in Hinv. destruct Hinv as [Hid Hinv]. split; [done|].
  destruct (registration_succeeded cs outcomes); [|done].
  destruct Hinv as [-> _]. simpl. repeat split.
  destruct (stackless st) as [s|]; [|done].
  eexists. split; [done|]. simpl. repeat split; apply update_flags_set.
Qed.
End properties.

Lemma register_validation_mismatch_witness :
  ContextReducer_register_contextvar (ContextReducer_init 9 true true) 1
    (ModulePath "m") (Some "b") true example_process
  = (Raise ValueError, ContextReducer_init 9 true true, example_process).
Proof.
  apply (register_validation_mismatch _ _ _ _ _ "a" 2).
  - reflexivity.
  - vm_compute. reflexivity.
  - discriminate.
Defined.

(** * The properties at concrete inputs *)

Lemma items_by_key_perm {K V : Type} `{Countable K} (m : gmap K V) :
  items_by_key m ≡ₚ map_to_list m.
Proof. reflexivity. Qed.


(** The two reducers are what register_contextvar builds when it is told
    not to validate. *)
Example misnamed_reducer_registered :
  ContextReducer_register_contextvar (ContextReducer_init 9 false true) 1
    (ModulePath "m") (Some "b") false example_process
  = (Ok tt, misnamed_reducer, example_process).
Proof. reflexivity. Qed.

Example colliding_reducer_registered :
  ContextReducer_register_contextvar
    (ContextReducer_register_contextvar (ContextReducer_init 9 false false) 1
       (ModulePath "m") None true example_process).1.2
    2 (ModulePath "m") (Some "a") false example_process
  = (Ok tt, colliding_reducer, example_process).
Proof. vm_compute. reflexivity. Qed.

(** Which of the two values survives the collision depends on the order of
    iteration. *)
Example colliding_reduce_by_key :
  reduce_items (picklable_contextvars colliding_reducer)
    (items_by_key (ctx_vars colliding_context))
  = {[ ("m", "a") := 10 ]}.
Proof. vm_compute. reflexivity. Qed.

Example colliding_reduce_backwards :
  reduce_items (picklable_contextvars colliding_reducer)
    (items_backwards (ctx_vars colliding_context))
  = {[ ("m", "a") := 20 ]}.
Proof. vm_compute. reflexivity. Qed.

Example misnamed_reconstruct :
  (_context_factory items_by_key (Some CopyContext) {[ ("m", "b") := 10 ]} example_process).1
  = Ok (MkContext BaseContext {[ 2 := 10 ]}).
Proof. vm_compute. reflexivity. Qed.

Example colliding_items :
  items_by_key (ctx_vars colliding_context) = [(2, 20); (1, 10)]
  ∧ items_backwards (ctx_vars colliding_context) = [(1, 10); (2, 20)].
Proof. split; vm_compute; reflexivity. Qed.

(** ** Witnesses *)


Lemma reconstruction_isolation_witness :
  (_context_factory items_by_key (Some CopyContext) {[ ("m", "a") := 5 ]} example_process).2
  = example_process.
Proof.
  apply (reconstruction_isolation items_by_key items_by_key_perm (Some CopyContext)
           {[ ("m", "a") := 5 ]} example_process).
Defined.

Lemma privacy_boundary_witness :
  ∃ cvars,
    ContextReducer_call items_by_key items_by_key misnamed_reducer
      (ArgContext validated_context)
    = Ok (_context_factory items_by_key,
          (select_cls misnamed_reducer validated_context, cvars))
    ∧ ∀ r v, cvars !! r = Some v →
             ∃ cv, ctx_vars validated_context !! cv = Some v
                   ∧ picklable_contextvars misnamed_reducer !! cv = Some r.
Proof.
  destruct (privacy_boundary items_by_key items_by_key items_by_key_perm
              misnamed_reducer validated_context) as (cvars & Hcall & Hsound & _).
  exists cvars. split; [exact Hcall | exact Hsound].
Defined.

Lemma reference_collision_witness :
  ∃ cvars v,
    ContextReducer_call items_by_key items_by_key colliding_reducer
      (ArgContext colliding_context)
    = Ok (_context_factory items_by_key,
          (select_cls colliding_reducer colliding_context, cvars))
    ∧ cvars !! ("m", "a") = Some v
    ∧ size cvars
      < length (registered_items (picklable_contextvars colliding_reducer)
                  (ctx_vars colliding_context)).
Proof.
  destruct (reference_collision items_by_key items_by_key items_by_key_perm
              colliding_reducer colliding_context 1 2 10 20 ("m", "a"))
    as (cvars & v & Hcall & Hentry & _ & _ & Hsize).
  - discriminate.
  - vm_compute. reflexivity.
  - vm_compute. reflexivity.
  - vm_compute. reflexivity.
  - vm_compute. reflexivity.
  - exists cvars, v. split; [exact Hcall|]. split; [exact Hentry | exact Hsize].
Defined.

Lemma validated_resolves_back :
  resolves_back example_process (picklable_contextvars validated_reducer)
    (ctx_vars validated_context).
Proof.
  intros cv modulename qualname _ Hreg. simpl in Hreg.
  apply lookup_insert_Some in Hreg as [[<- [= <- <-]]|[_ Hreg]].
  { split; [vm_compute; reflexivity | by eexists]. }
  apply lookup_singleton_Some in Hreg as [<- [= <- <-]].
  split; [vm_compute; reflexivity | by eexists].
Defined.

Lemma round_trip_resolving_witness :
  round_trip items_by_key items_by_key validated_reducer validated_context
    example_process.
Proof.
  apply (round_trip_resolving items_by_key items_by_key items_by_key_perm
           items_by_key_perm validated_reducer validated_context example_process).
  - apply (bool_decide_unpack _). vm_compute. reflexivity.
  - exact validated_resolves_back.
Defined.

(** ** Counterexamples *)

(** C1 as stated fails: every key of the context is registered, under a
    name that resolves to another variable, as register_contextvar allows
    with validate false; the reconstructed context has the value under that
    other variable and none for the registered one. *)
Lemma round_trip_counterexample :
  dom (ctx_vars misnamed_context) ⊆ dom (picklable_contextvars misnamed_reducer)
  ∧ ¬ round_trip items_by_key items_by_key misnamed_reducer misnamed_context
        example_process.
Proof.
  split.
  { apply (bool_decide_unpack _). vm_compute. reflexivity. }
  intros (f & cls & cvars & context' & st' & Hcall & Hrun & Hvalues).
  injection Hcall as <- <- <-.
  vm_compute in Hrun. injection Hrun as <- _.
  specialize (Hvalues 1 10). vm_compute in Hvalues.
  discriminate Hvalues; [by eexists | reflexivity].
Qed.

(** C2 as stated fails: with two context keys registered under one
    reference the map has one entry for it, so one of the two pairs is
    missing, whichever way the context is iterated. *)
Lemma exact_pairs_counterexample :
  ¬ (∃ f cls cvars,
       ContextReducer_call items_by_key items_by_key colliding_reducer
         (ArgContext colliding_context) = Ok (f, (cls, cvars))
       ∧ exact_pairs (picklable_contextvars colliding_reducer)
           (ctx_vars colliding_context) cvars)
  ∧ ¬ (∃ f cls cvars,
         ContextReducer_call items_backwards items_by_key colliding_reducer
           (ArgContext colliding_context) = Ok (f, (cls, cvars))
         ∧ exact_pairs (picklable_contextvars colliding_reducer)
             (ctx_vars colliding_context) cvars).
Proof.
  assert (∀ cvars, ¬ exact_pairs (picklable_contextvars colliding_reducer)
                       (ctx_vars colliding_context) cvars) as Hnone.
  { intros cvars Hexact.
    destruct (Hexact ("m", "a") 10) as [_ H10].
    destruct (Hexact ("m", "a") 20) as [_ H20].
    rewrite H10 in H20.
    - discriminate H20. exists 2. split; vm_compute; reflexivity.
    - exists 1. split; vm_compute; reflexivity. }
  split; intros (f & cls & cvars & _ & Hexact); by apply (Hnone cvars).
Qed.

(** * Further properties of the registry *)


Lemma lookup_global_path st path qualname :
  lookup_global st (ModulePath path) path qualname = resolve st path qualname.
Proof.
  unfold lookup_global, resolve. destruct (import_module st path) as [m|]; [|done].
  by destruct (_getattribute st m qualname) as [[v p]|].
Qed.

Lemma resolve_ext st st' modulename qualname :
  heap st' = heap st → sys_modules st' = sys_modules st →
  resolve st' modulename qualname = resolve st modulename qualname.
Proof.
  unfold resolve, import_module, _getattribute. by intros -> ->.
Qed.

Lemma contextvar_name_ext st st' cv :
  heap st' = heap st → contextvar_name st' cv = contextvar_name st cv.
Proof. unfold contextvar_name. by intros ->. Qed.

(** What a call of ContextReducer.register_contextvar that returns has
    checked and done. *)
Lemma register_contextvar_returns self contextvar module qualname validate st u self' st' :
  ContextReducer_register_contextvar self contextvar module qualname validate st
  = (Ok u, self', st') →
  ∃ name,
    contextvar_name st contextvar = Some name
    ∧ (validate = true →
       lookup_global st module (module_name module) (default name qualname)
       = Ok contextvar)
    ∧ picklable_contextvars self'
      = <[contextvar := (module_name module, default name qualname)]>
          (picklable_contextvars self)
    ∧ reducer_id self' = reducer_id self
    ∧ factory_is_copy_context self' = factory_is_copy_context self
    ∧ auto_register self' = false
    ∧ st' = (if auto_register self then activate self st else st).
Proof.
  unfold ContextReducer_register_contextvar, validate_contextvar.
  destruct (contextvar_name st contextvar) as [name|]; [|discriminate].
  intros Hcall. exists name. split; [done|].
  destruct validate.
  - destruct (lookup_global _ _ _ _) as [v|e]; [|discriminate].
    case_decide as Hv; [subst v|discriminate].
    destruct (auto_register self) eqn:Hauto; injection Hcall as <- <-; by repeat split.
  - destruct (auto_register self) eqn:Hauto; injection Hcall as <- <-; by repeat split.
Qed.


(** X2. A call of register_contextvar that returns has stored, for the
    variable, the pair of the module's name (the string given, or the
    __name__ of the module object given) and the qualified name (the one
    given, or the variable's own name when none is given), replacing an
    earlier entry of that variable; all other entries, the identity of the
    reducer and its factory_is_copy_context are kept, auto_register is
    false afterwards, and the heap, the modules and the current context of
    the process are untouched. *)
Theorem register_success_stores (self : ContextReducer) (contextvar : ref)
    (module : module_arg) (qualname : option string) (validate : bool) (st : Process) :
  match ContextReducer_register_contextvar self contextvar module qualname validate st with
  | (Ok _, self', st') =>
      ∃ name,
        contextvar_name st contextvar = Some name
        ∧ (∀ cv, picklable_contextvars self' !! cv
                 = if decide (cv = contextvar)
                   then Some (module_name module, default name qualname)
                   else picklable_contextvars self !! cv)
        ∧ reducer_id self' = reducer_id self
        ∧ factory_is_copy_context self' = factory_is_copy_context self
        ∧ auto_register self' = false
        ∧ heap st' = heap st ∧ sys_modules st' = sys_modules st
        ∧ current_context st' = current_context st
  | (Raise _, _, _) => True
  end.
Proof.
  destruct (ContextReducer_register_contextvar _ _ _ _ _ _) as [[[u|e] self'] st'] eqn:Hcall;
    [|done].
  apply register_contextvar_returns in Hcall
    as (name & Hname & _ & Hreg & Hid & Hcopy & Hauto & Hst).
  exists name. split; [done|]. split.
  { intros cv. rewrite Hreg. case_decide as Hcv.
    - subst cv. apply lookup_insert_eq.
    - by apply lookup_insert_ne. }
  repeat split; try done; subst st'; by destruct (auto_register self).
Qed.

(** X3. With validate false, register_contextvar resolves nothing: for a
    ContextVar it returns whatever the module and the name are, also when
    no such module can be imported, and the pair is in the registry
    afterwards. *)
Theorem register_unvalidated_returns (self : ContextReducer) (contextvar : ref)
    (module : module_arg) (qualname : option string) (st : Process) (name : string) :
  contextvar_name st contextvar = Some name →
  ∃ self' st',
    ContextReducer_register_contextvar self contextvar module qualname false st
    = (Ok tt, self', st')
    ∧ picklable_contextvars self' !! contextvar
      = Some (module_name module, default name qualname).
Proof.
  intros Hname. unfold ContextReducer_register_contextvar. rewrite Hname.
  destruct (auto_register self); eexists _, _; (split; [reflexivity|]);
    apply lookup_insert_eq.
Qed.

(** X4. Registering a variable that has no entry and unregistering it
    again gives back the registry as it was; the unregistration does not
    raise. *)
Theorem register_unregister_restores (self : ContextReducer) (contextvar : ref)
    (module : module_arg) (qualname : option string) (validate : bool) (st : Process)
    (u : unit) (self' : ContextReducer) (st' : Process) :
  picklable_contextvars self !! contextvar = None →
  ContextReducer_register_contextvar self contextvar module qualname validate st
  = (Ok u, self', st') →
  ∃ self'',
    ContextReducer_unregister_contextvar self' contextvar = (Ok tt, self'')
    ∧ picklable_contextvars self'' = picklable_contextvars self.
Proof.
  intros Hfresh Hcall.
  apply register_contextvar_returns in Hcall as (name & _ & _ & Hreg & _).
  unfold ContextReducer_unregister_contextvar. rewrite Hreg, lookup_insert_eq.
  eexists. split; [reflexivity|]. simpl.
  rewrite delete_insert_eq. by apply delete_id.
Qed.

(** X5. A reducer whose auto_register is false, as __init__ sets it by
    default, never installs itself: a registration on it leaves the whole
    process, copyreg and the stackless flags included, as it was, and
    auto_register stays false. *)
Theorem register_without_auto_register (self : ContextReducer) (contextvar : ref)
    (module : module_arg) (qualname : option string) (validate : bool) (st : Process) :
  auto_register self = false →
  (ContextReducer_register_contextvar self contextvar module qualname validate st).2 = st
  ∧ auto_register
      (ContextReducer_register_contextvar self contextvar module qualname validate st).1.2
    = false.
Proof.
  intros Hauto. unfold ContextReducer_register_contextvar. rewrite Hauto.
  destruct (contextvar_name st contextvar); [|done].
  by destruct (if validate then _ else _).
Qed.

(** X6. Validation establishes what reconstruction relies on: when
    register_contextvar with validate true and a module given by name
    returns, the stored reference resolves, in the process as the call
    leaves it, to the registered variable itself. *)
Theorem validated_registration_resolves (self : ContextReducer) (contextvar : ref)
    (path : string) (qualname : option string) (st : Process) :
  match ContextReducer_register_contextvar self contextvar (ModulePath path) qualname
          true st with
  | (Ok _, self', st') =>
      ∃ modulename name,
        picklable_contextvars self' !! contextvar = Some (modulename, name)
        ∧ resolve st' modulename name = Ok contextvar
        ∧ is_Some (contextvar_name st' contextvar)
  | (Raise _, _, _) => True
  end.
Proof.
  destruct (ContextReducer_register_contextvar _ _ _ _ _ _) as [[[u|e] self'] st'] eqn:Hcall;
    [|done].
  apply register_contextvar_returns in Hcall
    as (name & Hname & Hvalid & Hreg & _ & _ & _ & Hst).
  specialize (Hvalid eq_refl). simpl in Hvalid. rewrite lookup_global_path in Hvalid.
  exists path, (default name qualname).
  split; [by rewrite Hreg, lookup_insert_eq|].
  assert (heap st' = heap st ∧ sys_modules st' = sys_modules st) as [Hheap Hmod].
  { subst st'. by destruct (auto_register self). }
  split.
  - by rewrite (resolve_ext st st') by done.
  - rewrite (contextvar_name_ext st st') by done. by rewrite Hname.
Qed.

(** One call that cannot store an unchecked reference keeps the registry
    of the default reducer resolving. *)
Lemma run_call_resolving c p :
  validated_by_path c = true →
  registry_resolves (process p) (picklable_contextvars (default_context_reducer p)) →
  registry_resolves (process (run_call c p).2)
    (picklable_contextvars (default_context_reducer (run_call c p).2)).
Proof.
  intros Hc Hinv. destruct c as [contextvar module qualname validate|contextvar]; simpl.
  - destruct module as [path|m mname]; [|discriminate]. destruct validate; [|discriminate].
    unfold register_contextvar.
    pose proof (register_contextvar_outcome (default_context_reducer p) contextvar
                  (ModulePath path) qualname true (process p)) as Hout.
    destruct (ContextReducer_register_contextvar _ _ _ _ _ _)
      as [[[u|e] self'] st'] eqn:Hcall; simpl.
    + apply register_contextvar_returns in Hcall
        as (name & Hname & Hvalid & Hreg & _ & _ & _ & Hst).
      specialize (Hvalid eq_refl). simpl in Hvalid. rewrite lookup_global_path in Hvalid.
      assert (heap st' = heap (process p) ∧ sys_modules st' = sys_modules (process p))
        as [Hheap Hmod].
      { subst st'. by destruct (auto_register (default_context_reducer p)). }
      intros cv modulename qn Hcv. rewrite Hreg in Hcv.
      rewrite (resolve_ext (process p) st'), (contextvar_name_ext (process p) st') by done.
      apply lookup_insert_Some in Hcv as [[<- [= <- <-]]|[_ Hcv]].
      * split; [done|]. by rewrite Hname.
      * by apply Hinv.
    + by destruct Hout as [_ [-> ->]].
  - unfold unregister_contextvar, ContextReducer_unregister_contextvar.
    destruct (picklable_contextvars (default_context_reducer p) !! contextvar); simpl;
      [|done].
    intros cv modulename qn Hcv. apply lookup_delete_Some in Hcv as [_ Hcv].
    by apply Hinv.
Qed.

Lemma run_calls_resolving cs p :
  forallb validated_by_path cs = true →
  registry_resolves (process p) (picklable_contextvars (default_context_reducer p)) →
  registry_resolves (process (run_calls cs p).2)
    (picklable_contextvars (default_context_reducer (run_calls cs p).2)).
Proof.
  revert p. induction cs as [|c cs IH]; intros p Hcs Hinv; simpl; [done|].
  simpl in Hcs. apply andb_true_iff in Hcs as [Hc Hcs].
  pose proof (run_call_resolving c p Hc Hinv) as Hstep.
  destruct (run_call c p) as [r p1]. simpl in Hstep.
  specialize (IH p1 Hcs Hstep). by destruct (run_calls cs p1) as [rs p2].
Qed.

(** X7. As long as every registration through the module-level function
    is made by module name with validate true, whatever is registered and
    unregistered in between, every reference in the registry of the default
    reducer resolves to the variable it is registered for; so no two
    variables share a reference, and the registry meets, for every context,
    what the round trip needs. *)
Theorem validated_registrations_resolve (id : ref) (st : Process) (cs : list call) :
  forallb validated_by_path cs = true →
  let p := (run_calls cs (import_cvpickle id st)).2 in
  let registry := picklable_contextvars (default_context_reducer p) in
  registry_resolves (process p) registry
  ∧ ∀ vars, resolves_back (process p) registry vars ∧ collision_free registry vars.
Proof.
  intros Hcs p registry.
  assert (registry_resolves (process p) registry) as Hres.
  { apply run_calls_resolving; [done|]. intros cv m q Hcv. simpl in Hcv.
    by rewrite lookup_empty in Hcv. }
  split; [done|]. intros vars. split.
  - intros cv m q _ Hcv. by apply Hres.
  - intros cv1 cv2 [m q] _ _ H1 H2.
    apply Hres in H1 as [H1 _]. apply Hres in H2 as [H2 _]. congruence.
Qed.

Lemma run_calls_keeps_factory cs p :
  factory_is_copy_context (default_context_reducer (run_calls cs p).2)
  = factory_is_copy_context (default_context_reducer p).
Proof.
  revert p. induction cs as [|c cs IH]; intros p; simpl; [done|].
  destruct (run_call c p) as [r p1] eqn:Hcall.
  specialize (IH p1). destruct (run_calls cs p1) as [rs p2]. simpl in *.
  rewrite IH. clear IH.
  destruct c as [contextvar module qualname validate|contextvar]; simpl in Hcall.
  - unfold register_contextvar in Hcall.
    pose proof (register_contextvar_outcome (default_context_reducer p) contextvar
                  module qualname validate (process p)) as Hout.
    destruct (ContextReducer_register_contextvar _ _ _ _ _ _)
      as [[[u|e] self'] st'] eqn:Hreg; injection Hcall as <- <-; simpl.
    + by apply register_contextvar_returns in Hreg as (? & _ & _ & _ & _ & -> & _).
    + by destruct Hout as [_ [-> _]].
  - unfold unregister_contextvar, ContextReducer_unregister_contextvar in Hcall.
    by destruct (picklable_contextvars (default_context_reducer p) !! contextvar);
      injection Hcall as <- <-.
Qed.

Lemma reduce_items_agree registry1 registry2 (items : list (ref * ref)) acc :
  (∀ cv v, (cv, v) ∈ items → registry1 !! cv = registry2 !! cv) →
  foldl (reduce_step registry1) acc items = foldl (reduce_step registry2) acc items.
Proof.
  revert acc. induction items as [|[cv v] items IH]; intros acc Hagree; simpl; [done|].
  rewrite (Hagree cv v) by apply list_elem_of_here.
  apply IH. intros cv' v' Hin. apply (Hagree cv' v'). by apply list_elem_of_further.
Qed.

(** Distinct keys with distinct images: the images do not repeat. *)
Lemma NoDup_omap_fst {K K' V : Type} (f : K → option K') (items : list (K * V)) :
  NoDup items.*1 →
  (∀ k1 v1 k2 v2 k', (k1, v1) ∈ items → (k2, v2) ∈ items →
                     f k1 = Some k' → f k2 = Some k' → k1 = k2) →
  NoDup (omap (λ item, f item.1) items).
Proof.
  induction items as [|[k0 v0] items IH]; intros Hnd Hinj; simpl; [constructor|].
  apply NoDup_cons in Hnd as [Hfresh Hnd].
  assert (NoDup (omap (λ item : K * V, f item.1) items)) as Hrest.
  { apply IH; [done|]. intros k1 v1 k2 v2 k' Hin1 Hin2.
    apply (Hinj k1 v1 k2 v2 k'); by apply list_elem_of_further. }
  destruct (f k0) as [k0'|] eqn:Hk0; [|done].
  constructor; [|done]. intros Hin.
  apply list_elem_of_omap in Hin as ([k1 v1] & Hin1 & Hk1). simpl in Hk1.
  assert (k1 = k0) as ->.
  { apply (Hinj k1 v1 k0 v0 k0'); [by apply list_elem_of_further|apply list_elem_of_here|done..]. }
  apply Hfresh. apply list_elem_of_fmap. by exists (k0, v1).
Qed.

Section more_properties.
Variable context_items : gmap ref ref → list (ref * ref).
Variable dict_items : gmap (string * string) ref → list ((string * string) * ref).
Hypothesis context_items_perm : ∀ m, context_items m ≡ₚ map_to_list m.
Hypothesis dict_items_perm : ∀ m, dict_items m ≡ₚ map_to_list m.

Abbreviation reduce' := (ContextReducer_call context_items dict_items).
Abbreviation reconstruct' := (_context_factory dict_items).


(** X8. The reducer behind the module-level functions always selects
    contextvars.copy_context: after any sequence of calls of the
    module-level register_contextvar and unregister_contextvar, reducing a
    context with default_context_reducer gives copy_context as the first
    argument of the factory, whatever the type of the context. *)
Theorem default_reducer_selects_copy_context (id : ref) (st : Process) (cs : list call)
    (c : Context) :
  ∃ cvars,
    reduce' (default_context_reducer (run_calls cs (import_cvpickle id st)).2)
      (ArgContext c)
    = Ok (reconstruct', (Some CopyContext, cvars)).
Proof.
  eexists. simpl. unfold select_cls. by rewrite run_calls_keeps_factory.
Qed.

(** X9. Pickling a variable is opt-in: a reducer as __init__ builds it,
    with nothing registered yet, reduces every context to the empty map,
    whatever the context holds. *)
Theorem fresh_reducer_reduces_to_empty (id : ref) (auto copy : bool) (c : Context) :
  reduce' (ContextReducer_init id auto copy) (ArgContext c)
  = Ok (reconstruct', (select_cls (ContextReducer_init id auto copy) c, ∅)).
Proof.
  simpl. do 3 f_equal. unfold reduce_items.
  generalize (context_items (ctx_vars c)).
  intros items. induction items as [|[cv v] items IH]; [done|].
  simpl. by rewrite lookup_empty.
Qed.

(** X10. Only the registry entries of the context's own keys matter: two
    reducers with the same factory_is_copy_context whose registries agree
    on every key of the context reduce it to the same result; so
    registering or unregistering a variable the context does not hold
    changes nothing in its reduction. *)
Theorem reduce_depends_on_context_keys (self1 self2 : ContextReducer) (c : Context) :
  factory_is_copy_context self1 = factory_is_copy_context self2 →
  (∀ cv, is_Some (ctx_vars c !! cv) →
         picklable_contextvars self1 !! cv = picklable_contextvars self2 !! cv) →
  reduce' self1 (ArgContext c) = reduce' self2 (ArgContext c).
Proof.
  intros Hcopy Hagree. simpl. unfold select_cls, reduce_items. rewrite Hcopy.
  do 3 f_equal. apply reduce_items_agree. intros cv v Hin. apply Hagree.
  exists v. by eapply elem_of_items.
Qed.

(** X11. The number of entries of the map never exceeds the number of
    registered keys of the context, and equals it when no two of them
    share a reference. *)
Theorem reduce_size (self : ContextReducer) (c : Context) :
  let registry := picklable_contextvars self in
  let cvars := reduce_items registry (context_items (ctx_vars c)) in
  reduce' self (ArgContext c) = Ok (reconstruct', (select_cls self c, cvars))
  ∧ (size cvars ≤ length (registered_items registry (ctx_vars c)))%nat
  ∧ (collision_free registry (ctx_vars c) →
     size cvars = length (registered_items registry (ctx_vars c))).
Proof.
  cbv zeta. split; [done|].
  assert (length (registered_items (picklable_contextvars self) (ctx_vars c))
          = length (omap (λ item : ref * ref, picklable_contextvars self !! item.1)
                      (context_items (ctx_vars c)))) as ->.
  { rewrite length_omap_filter. unfold registered_items.
    by rewrite context_items_perm. }
  rewrite <- size_dom. unfold reduce_items. rewrite reduce_step_relabel, relabel_dom.
  rewrite dom_empty_L, (left_id_L ∅ (∪)).
  split; [apply size_list_to_set_le|].
  intros Hfree. apply size_list_to_set.
  apply (NoDup_omap_fst (λ cv, picklable_contextvars self !! cv)).
  { by apply NoDup_fst_items. }
  intros cv1 v1 cv2 v2 r Hin1 Hin2 Hr1 Hr2.
  apply (Hfree cv1 cv2 r); [| |done|done].
  - exists v1. by eapply elem_of_items.
  - exists v2. by eapply elem_of_items.
Qed.
End more_properties.


(** * Further properties of the factory and of the round trip *)

Section factory_properties.
Variable context_items : gmap ref ref → list (ref * ref).
Variable dict_items : gmap (string * string) ref → list ((string * string) * ref).
Hypothesis context_items_perm : ∀ m, context_items m ≡ₚ map_to_list m.
Hypothesis dict_items_perm : ∀ m, dict_items m ≡ₚ map_to_list m.

Abbreviation reduce'' := (ContextReducer_call context_items dict_items).
Abbreviation reconstruct'' := (_context_factory dict_items).



(** The entries of a reduction resolve to the keys they come from. *)
Lemma reduced_entries_resolve registry vars st r v :
  resolves_back st registry vars →
  reduce_items registry (context_items vars) !! r = Some v →
  ∃ cv, vars !! cv = Some v ∧ registry !! cv = Some r
        ∧ resolved st r = Some cv ∧ is_Some (contextvar_name st cv).
Proof.
  intros Hback Hr. destruct r as [m q].
  apply (reduce_items_sound context_items context_items_perm) in Hr as (cv & Hcv & Hr).
  destruct (Hback cv m q) as [Hres Hname]; [by rewrite Hcv|done|].
  exists cv. repeat split; [done|done| |done]. by apply resolved_Some.
Qed.

(** Reduction followed by reconstruction, for a context whose keys are all
    registered under references that resolve to the keys themselves. *)
Lemma round_trip_overlays (self : ContextReducer) (c : Context) (st : Process) :
  dom (ctx_vars c) ⊆ dom (picklable_contextvars self) →
  resolves_back st (picklable_contextvars self) (ctx_vars c) →
  ∃ cvars context' st',
    reduce'' self (ArgContext c) = Ok (reconstruct'', (select_cls self c, cvars))
    ∧ reconstruct'' (select_cls self c) cvars st = (Ok context', st')
    ∧ ctx_vars context'
      = ctx_vars c ∪ ctx_vars (new_context (select_cls self c) st)
    ∧ (factory_is_copy_context self = false → context' = c).
Proof.
  intros Hreg Hback.
  set (registry := picklable_contextvars self) in *.
  set (cvars := reduce_items registry (context_items (ctx_vars c))).
  set (cls := select_cls self c).
  set (st0 := set_current_context (new_context cls st) st).
  assert (resolves_back st0 registry (ctx_vars c)) as Hback0 by exact Hback.
  assert (∀ r v, (r, v) ∈ dict_items cvars →
                 ∃ cv, resolved st0 r = Some cv
                       ∧ is_Some (contextvar_name st0 cv)) as Hall.
  { intros r v Hin. apply (elem_of_items _ dict_items_perm) in Hin.
    destruct (reduced_entries_resolve _ _ _ _ _ Hback0 Hin) as (cv & _ & _ & ? & ?).
    by exists cv. }
  assert (foldl (relabel_step (resolved st0)) (ctx_vars (new_context cls st))
            (dict_items cvars)
          = ctx_vars c ∪ ctx_vars (new_context cls st)) as Hvars.
  { apply map_eq. intros cv. destruct (ctx_vars c !! cv) as [v|] eqn:Hcv.
    - rewrite (lookup_union_Some_l _ _ _ _ Hcv).
      assert (is_Some (registry !! cv)) as [[m q] Hr].
      { apply elem_of_dom, Hreg, elem_of_dom. by rewrite Hcv. }
      destruct (Hback0 cv m q) as [Hres Hname]; [by rewrite Hcv|done|].
      assert (cvars !! (m, q) = Some v) as Hentry.
      { apply (reduce_items_complete context_items context_items_perm _ _ cv);
          [|done|done].
        intros cv0 Hcv0 Hr0. destruct (Hback0 cv0 m q Hcv0 Hr0) as [Hres0 _].
        congruence. }
      apply (relabel_complete _ _ _ (m, q)).
      + by apply NoDup_fst_items.
      + intros r0 v0 Hin0 Hres0. apply (elem_of_items _ dict_items_perm) in Hin0.
        destruct (reduced_entries_resolve _ _ _ _ _ Hback0 Hin0)
          as (cv0 & _ & Hr0 & Hres0' & _).
        assert (cv0 = cv) as -> by congruence. congruence.
      + by apply (elem_of_items _ dict_items_perm).
      + by apply resolved_Some.
    - rewrite lookup_union_r by done. apply relabel_untouched.
      intros r v Hin Hres. apply (elem_of_items _ dict_items_perm) in Hin.
      destruct (reduced_entries_resolve _ _ _ _ _ Hback0 Hin)
        as (cv0 & Hcv0 & _ & Hres0 & _).
      congruence. }
  exists cvars. eexists _, _. split; [reflexivity|].
  rewrite context_factory_unfold. fold st0. rewrite (set_vars_ok _ _ Hall).
  split; [reflexivity|]. simpl. split; [exact Hvars|].
  intros Hcopy. rewrite Hvars. unfold cls, select_cls. rewrite Hcopy.
  destruct c as [ty vars]. simpl.
  case_decide as Hty; simpl.
  - subst ty. by rewrite (right_id_L ∅ (∪)).
  - by rewrite (right_id_L ∅ (∪)).
Qed.
(** X15. The round trip is exact: for a context whose keys are all
    registered, with references that resolve to the keys themselves, the
    reconstructed context holds the values of the original on top of those
    of the context the factory started from; with a reducer whose
    factory_is_copy_context is false it is equal to the original context,
    type included. *)
Theorem round_trip_exact (self : ContextReducer) (c : Context) (st : Process) :
  dom (ctx_vars c) ⊆ dom (picklable_contextvars self) →
  resolves_back st (picklable_contextvars self) (ctx_vars c) →
  ∃ cvars context' st',
    reduce'' self (ArgContext c) = Ok (reconstruct'', (select_cls self c, cvars))
    ∧ reconstruct'' (select_cls self c) cvars st = (Ok context', st')
    ∧ ctx_vars context'
      = ctx_vars c ∪ ctx_vars (new_context (select_cls self c) st)
    ∧ (factory_is_copy_context self = false → context' = c).
Proof. apply round_trip_overlays. Qed.

(** X16. Through the module-level functions alone: when every
    registration was made by module name with validate true, a context
    whose keys are all registered with the default reducer is reduced and
    reconstructed, in the same process, to a context that holds the values
    of the original on top of the values of the current context. *)
Theorem validated_round_trip (id : ref) (st : Process) (cs : list call) (c : Context) :
  forallb validated_by_path cs = true →
  let p := (run_calls cs (import_cvpickle id st)).2 in
  dom (ctx_vars c) ⊆ dom (picklable_contextvars (default_context_reducer p)) →
  ∃ cvars context' st',
    reduce'' (default_context_reducer p) (ArgContext c)
    = Ok (reconstruct'', (Some CopyContext, cvars))
    ∧ reconstruct'' (Some CopyContext) cvars (process p) = (Ok context', st')
    ∧ ctx_vars context' = ctx_vars c ∪ ctx_vars (current_context (process p)).
Proof.
  intros Hcs p Hreg.
  assert (resolves_back (process p)
            (picklable_contextvars (default_context_reducer p)) (ctx_vars c)) as Hback.
  { intros cv m q _ Hcv. revert cv m q Hcv.
    apply run_calls_resolving; [done|]. intros cv m q Hcv. simpl in Hcv.
    by rewrite lookup_empty in Hcv. }
  destruct (round_trip_overlays (default_context_reducer p) c (process p) Hreg Hback)
    as (cvars & context' & st' & Hreduce & Hrun & Hvars & _).
  assert (select_cls (default_context_reducer p) c = Some CopyContext) as Hcls.
  { unfold select_cls, p. by rewrite run_calls_keeps_factory. }
  rewrite Hcls in Hreduce, Hrun, Hvars.
  by exists cvars, context', st'.
Qed.
End factory_properties.

(** ** Witnesses of the further properties *)

Lemma register_unvalidated_returns_witness :
  ∃ self' st',
    ContextReducer_register_contextvar (ContextReducer_init 9 false false) 1
      (ModulePath "no.such.module") None false example_process
    = (Ok tt, self', st')
    ∧ picklable_contextvars self' !! 1 = Some ("no.such.module", "a").
Proof.
  apply (register_unvalidated_returns (ContextReducer_init 9 false false) 1
           (ModulePath "no.such.module") None example_process "a").
  reflexivity.
Defined.

Lemma register_unregister_restores_witness :
  ∃ self'',
    ContextReducer_unregister_contextvar
      (MkContextReducer 9 {[ 1 := ("m", "a") ]} false false) 1
    = (Ok tt, self'')
    ∧ picklable_contextvars self''
      = picklable_contextvars (ContextReducer_init 9 false false).
Proof.
  apply (register_unregister_restores (ContextReducer_init 9 false false) 1
           (ModulePath "m") None true example_process tt
           (MkContextReducer 9 {[ 1 := ("m", "a") ]} false false) example_process).
  - reflexivity.
  - vm_compute. reflexivity.
Defined.

Lemma register_without_auto_register_witness :
  (ContextReducer_register_contextvar (ContextReducer_init 9 false false) 1
     (ModulePath "m") None true example_process).2
  = example_process.
Proof.
  apply (register_without_auto_register (ContextReducer_init 9 false false) 1
           (ModulePath "m") None true example_process).
  reflexivity.
Defined.

Lemma validated_registrations_resolve_witness :
  let p :=
    (run_calls [CallRegister 1 (ModulePath "m") None true;
                CallRegister 2 (ModulePath "m") (Some "ns.c") true;
                CallRegister 1 (ModulePath "m") (Some "b") true;
                CallUnregister 2]
       (import_cvpickle 9 example_process)).2 in
  registry_resolves (process p) (picklable_contextvars (default_context_reducer p)).
Proof.
  apply (validated_registrations_resolve 9 example_process
           [CallRegister 1 (ModulePath "m") None true;
            CallRegister 2 (ModulePath "m") (Some "ns.c") true;
            CallRegister 1 (ModulePath "m") (Some "b") true;
            CallUnregister 2]).
  reflexivity.
Defined.

Lemma reduce_depends_on_context_keys_witness :
  ContextReducer_call items_by_key items_by_key misnamed_reducer
    (ArgContext misnamed_context)
  = ContextReducer_call items_by_key items_by_key
      (MkContextReducer 9 {[ 1 := ("m", "b"); 2 := ("m", "a") ]} true true)
      (ArgContext misnamed_context).
Proof.
  apply (reduce_depends_on_context_keys items_by_key items_by_key items_by_key_perm
           misnamed_reducer
           (MkContextReducer 9 {[ 1 := ("m", "b"); 2 := ("m", "a") ]} true true)
           misnamed_context).
  - reflexivity.
  - intros cv [v Hv]. simpl in Hv.
    apply lookup_singleton_Some in Hv as [<- _]. vm_compute. reflexivity.
Defined.

Lemma reduce_size_witness :
  (size (reduce_items (picklable_contextvars validated_reducer)
           (items_by_key (ctx_vars validated_context)))
   ≤ length (registered_items (picklable_contextvars validated_reducer)
               (ctx_vars validated_context)))%nat.
Proof.
  destruct (reduce_size items_by_key items_by_key items_by_key_perm
              validated_reducer validated_context) as (_ & Hle & _).
  exact Hle.
Defined.





Lemma round_trip_exact_witness :
  ∃ cvars context' st',
    ContextReducer_call items_by_key items_by_key validated_reducer
      (ArgContext validated_context)
    = Ok (_context_factory items_by_key,
          (select_cls validated_reducer validated_context, cvars))
    ∧ _context_factory items_by_key (select_cls validated_reducer validated_context)
        cvars example_process
      = (Ok context', st')
    ∧ ctx_vars context'
      = ctx_vars validated_context
        ∪ ctx_vars (new_context (select_cls validated_reducer validated_context)
                      example_process)
    ∧ (factory_is_copy_context validated_reducer = false → context' = validated_context).
Proof.
  apply (round_trip_exact items_by_key items_by_key items_by_key_perm
           items_by_key_perm validated_reducer validated_context example_process).
  - apply (bool_decide_unpack _). vm_compute. reflexivity.
  - exact validated_resolves_back.
Defined.

Lemma validated_round_trip_witness :
  let p :=
    (run_calls [CallRegister 1 (ModulePath "m") None true;
                CallRegister 2 (ModulePath "m") (Some "ns.c") true]
       (import_cvpickle 9 example_process)).2 in
  ∃ cvars context' st',
    ContextReducer_call items_by_key items_by_key (default_context_reducer p)
      (ArgContext validated_context)
    = Ok (_context_factory items_by_key, (Some CopyContext, cvars))
    ∧ _context_factory items_by_key (Some CopyContext) cvars (process p)
      = (Ok context', st')
    ∧ ctx_vars context'
      = ctx_vars validated_context ∪ ctx_vars (current_context (process p)).
Proof.
  apply (validated_round_trip items_by_key items_by_key items_by_key_perm
           items_by_key_perm 9 example_process
           [CallRegister 1 (ModulePath "m") None true;
            CallRegister 2 (ModulePath "m") (Some "ns.c") true]
           validated_context).
  - reflexivity.
  - apply (bool_decide_unpack _). vm_compute. reflexivity.
Defined.

(** Evaluations: what the witnesses' inputs give. *)
Example wrong_kind_raises :
  (_context_factory items_by_key None {[ ("m", "ns") := 5 ]} example_process).1
  = Raise AttributeError.
Proof. vm_compute. reflexivity. Qed.

Example round_trip_overlay :
  (_context_factory items_by_key (Some CopyContext)
     {[ ("m", "a") := 10; ("m", "ns.c") := 20 ]} example_process).1
  = Ok (MkContext BaseContext {[ 1 := 10; 2 := 20 ]}).
Proof. vm_compute. reflexivity. Qed.
